(** * xlsx_to_csv: a shallow embedding of priv/scripts/xlsx_to_csv.py

    The script opens a spreadsheet with openpyxl in read-only mode, walks the
    rows of the active sheet, replaces every None cell value by the empty
    text and hands each row to a csv.writer with the default dialect.

    Texts are modelled as [string], read as UTF-8 byte sequences: the four
    characters the csv writer looks at (comma, double quote, carriage return,
    line feed) are single bytes below 128 and never occur inside a multi-byte
    sequence, so the byte view and the code-point view agree on them. *)

From Stdlib Require Import ZArith Ascii String List Bool Lia.
From stdpp Require Import base gmap strings list pretty.

Import ListNotations.
Local Open Scope string_scope.
Local Open Scope list_scope.

(** ** Cell values *)

Module Py.

(** What [cell.value] can be for a cell of a read-only worksheet. *)
Inductive value :=
| VNone                         (* an empty cell *)
| VStr (s : string)             (* text, inline or shared; formulas too, as
                                   data_only is False *)
| VInt (n : Z)
| VBool (b : bool)
| VObj (text : string).         (* any other scalar (float, date, time),
                                   carried with the text str() gives for it *)

Record cell := Cell { cell_value : value }.

Definition row := list cell.

(** An exception instance; [exn_msg] is what str(e) returns. *)
Inductive exn := Exception (msg : string).

Definition exn_msg (e : exn) : string :=
  match e with Exception msg => msg end.

(** str(v) for a value that is neither text nor None. *)
Definition str (v : value) : string :=
  match v with
  | VNone => "None"
  | VStr s => s
  | VInt n => pretty n
  | VBool true => "True"
  | VBool false => "False"
  | VObj text => text
  end.

Definition is_None (v : value) : bool :=
  match v with VNone => true | _ => false end.

End Py.

Export Py.

(** ** The csv writer, default (excel) dialect *)

(** The delimited-text writer is a collaborator of the script (the csv module
    of the Python library), not code of the repository. The definitions
    follow the writer the script builds with csv.writer(csvfile) and no
    dialect argument: comma as delimiter, the double quote as quote
    character, doubled inside a quoted field, carriage return and line feed
    as line terminator, and quotes only where needed (QUOTE_MINIMAL). *)
Module Csv.

Definition delimiter : ascii := ","%char.
Definition quotechar : ascii := "034"%char.
Definition CR : ascii := "013"%char.
Definition LF : ascii := "010"%char.
Definition lineterminator : string := String CR (String LF EmptyString).

Fixpoint find_char (s : string) (c : ascii) : bool :=
  match s with
  | EmptyString => false
  | String d s' => bool_decide (c = d) || find_char s' c
  end.

(** The characters that force a field into quotes under QUOTE_MINIMAL. *)
Definition special (c : ascii) : bool :=
  bool_decide (c = delimiter) || bool_decide (c = quotechar)
  || find_char lineterminator c.

Fixpoint any_special (field : string) : bool :=
  match field with
  | EmptyString => false
  | String c s => special c || any_special s
  end.

(** Modelled from the spec: the escaping of the csv writer, which is not in
    the repository (standard CSV escaping). Copy of the field data into the
    record buffer: a quote character is written twice. *)
Fixpoint join_append_data (field : string) : string :=
  match field with
  | EmptyString => EmptyString
  | String c s =>
      if bool_decide (c = quotechar)
      then String quotechar (String c (join_append_data s))
      else String c (join_append_data s)
  end.

(** Modelled from the spec: the quoting of the csv writer, which is not in the
    repository (fields containing the delimiter, quote character, or line
    breaks are quoted). *)
Definition join_append (field : string) (quoted : bool) : string :=
  let quoted := quoted || any_special field in
  if quoted
  then String quotechar (join_append_data field +:+ String quotechar EmptyString)
  else join_append_data field.

(** A field as the writer lays it out when the dialect does not force quotes. *)
Definition render (s : string) : string := join_append s false.

(** The text the writer takes for one field: text as it is, None as the
    empty text, anything else through str(). *)
Definition field_text (v : value) : string :=
  match v with
  | VStr s => s
  | VNone => EmptyString
  | _ => str v
  end.

Fixpoint join_fields (fields : list string) : string :=
  match fields with
  | [] => EmptyString
  | [f] => f
  | f :: fs => f +:+ String delimiter (join_fields fs)
  end.

Definition is_empty (s : string) : bool :=
  match s with EmptyString => true | _ => false end.

(** Modelled from the spec: writerow of the csv writer, which is not in the
    repository (write one record, an ordered field sequence, with standard
    escaping). The text handed to the file's write() for one record; a record
    of one empty field would be an empty line, and the writer quotes it. *)
Definition writerow (values : list value) : string :=
  let rec := join_fields (map (fun v => join_append (field_text v) false) values) in
  let rec := if (0 <? length values)%nat && is_empty rec
             then join_append EmptyString true else rec in
  rec +:+ lineterminator.

End Csv.

(** ** The world the script runs in *)

Module Sys.

Inductive stream := Stdout | Stderr.

#[global] Instance stream_eq_dec : EqDecision stream.
Proof. solve_decision. Defined.

(** A workbook opened read-only: the rows the lazy iterator of the active
    sheet yields, in sheet order, and the exception the iterator raises after
    the last row it could read, if the sheet data is damaged further down. *)
Record workbook := Workbook {
  wb_rows : list row;
  wb_rows_error : option exn
}.

Inductive file :=
| Xlsx (wb : workbook)          (* a spreadsheet container *)
| Plain (content : string).     (* any other file, by its content *)

Inductive event :=
| LoadWorkbook (path : string)
| OpenWrite (path : string)
| WriteRow (path : string) (values : list value)
| CloseFile (path : string)
| CloseWorkbook (path : string)
| Print (out : stream) (text : string).

Record world := World {
  fs : gmap string file;        (* the files, by path *)
  handles : list string;        (* files open for writing *)
  readers : list string;        (* workbooks open for reading *)
  trace : list event            (* what happened so far, oldest first *)
}.

(** The failures of the collaborators, which the script does not decide. *)
Record env := Env {
  (* what load_workbook raises on a path that holds no spreadsheet *)
  load_error : string -> exn;
  (* what open(path, 'w') raises, if the path cannot be written *)
  open_error : string -> option exn;
  (* what writing data to the file at a path raises, given its content *)
  write_error : string -> string -> string -> option exn;
  (* what closing the file raises, if the last flush fails *)
  close_error : string -> option exn;
  (* what wb.close() raises, if anything *)
  wb_close_error : string -> option exn
}.

Inductive result (A : Type) :=
| Ok (a : A)
| Raise (e : exn)               (* an Exception instance travelling up *)
| Exit (status : Z).            (* SystemExit raised by sys.exit *)

Arguments Ok {A} a.
Arguments Raise {A} e.
Arguments Exit {A} status.

Definition M (A : Type) : Type := world -> result A * world.

#[global] Instance M_ret : MRet M := fun A a w => (Ok a, w).

#[global] Instance M_bind : MBind M := fun A B k m w =>
  match m w with
  | (Ok a, w') => k a w'
  | (Raise e, w') => (Raise e, w')
  | (Exit n, w') => (Exit n, w')
  end.

Definition raise {A} (e : exn) : M A := fun w => (Raise e, w).

Definition sys_exit {A} (status : Z) : M A := fun w => (Exit status, w).

(** try: m except Exception as e: handler e. SystemExit is not an Exception
    and passes through. *)
Definition try_except {A} (m : M A) (handler : exn -> M A) : M A := fun w =>
  match m w with
  | (Raise e, w') => handler e w'
  | r => r
  end.

Definition emit (e : event) : M unit := fun w =>
  (Ok tt, World (fs w) (handles w) (readers w) (trace w ++ [e])).

Definition newline : string := String Csv.LF EmptyString.

Definition print (out : stream) (text : string) : M unit :=
  emit (Print out (text +:+ newline)).

Fixpoint release (path : string) (open : list string) : list string :=
  match open with
  | [] => []
  | p :: open' => if decide (path = p) then open' else p :: release path open'
  end.

(** load_workbook(path, read_only=True, data_only=False): on a spreadsheet
    container it returns the workbook and keeps a reader open on it. *)
Definition load_workbook (E : env) (path : string) : M workbook := fun w =>
  match fs w !! path with
  | Some (Xlsx wb) =>
      (Ok wb, World (fs w) (handles w) (path :: readers w)
                    (trace w ++ [LoadWorkbook path]))
  | _ => (Raise (load_error E path), w)
  end.

(** wb.close() *)
Definition wb_close (E : env) (path : string) : M unit := fun w =>
  match wb_close_error E path with
  | Some e => (Raise e, w)
  | None =>
      (Ok tt, World (fs w) (handles w) (release path (readers w))
                    (trace w ++ [CloseWorkbook path]))
  end.

(** open(path, 'w'): creates the file or truncates it. *)
Definition open_w (E : env) (path : string) : M unit := fun w =>
  match open_error E path with
  | Some e => (Raise e, w)
  | None =>
      (Ok tt, World (<[path := Plain EmptyString]> (fs w)) (path :: handles w)
                    (readers w) (trace w ++ [OpenWrite path]))
  end.

Definition content_of (w : world) (path : string) : string :=
  match fs w !! path with
  | Some (Plain content) => content
  | _ => EmptyString
  end.

(** writer.writerow(values) on a writer over the file at [path]. *)
Definition writerow (E : env) (path : string) (values : list value) : M unit :=
  fun w =>
  let data := Csv.writerow values in
  match write_error E path (content_of w path) data with
  | Some e => (Raise e, w)
  | None =>
      (Ok tt, World (<[path := Plain (content_of w path +:+ data)]> (fs w))
                    (handles w) (readers w)
                    (trace w ++ [WriteRow path values]))
  end.

(** Closing releases the handle even when the final flush fails. *)
Definition close_file (E : env) (path : string) : M unit := fun w =>
  let w' := World (fs w) (release path (handles w)) (readers w)
                  (trace w ++ [CloseFile path]) in
  match close_error E path with
  | Some e => (Raise e, w')
  | None => (Ok tt, w')
  end.

(** Leaving a with block over the file at [path]: the file is closed on every
    way out of the body, and an exception of the close replaces the body's. *)
Definition closing {A} (E : env) (path : string) (body : M A) : M A := fun w =>
  match body w with
  | (Ok a, w') => (_ ← close_file E path; mret a) w'
  | (r, w') =>
      match close_file E path w' with
      | (Ok _, w'') => (r, w'')
      | (Raise e', w'') => (Raise e', w'')
      | (Exit n, w'') => (Exit n, w'')
      end
  end.

(** with open(path, 'w', ...) as f: body *)
Definition with_open {A} (E : env) (path : string) (body : M A) : M A :=
  _ ← open_w E path;
  closing E path body.

Fixpoint for_each {A} (xs : list A) (body : A -> M unit) : M unit :=
  match xs with
  | [] => mret tt
  | x :: xs' => _ ← body x; for_each xs' body
  end.

(** for row in ws.rows: body row *)
Definition for_rows (ws : workbook) (body : row -> M unit) : M unit :=
  _ ← for_each (wb_rows ws) body;
  match wb_rows_error ws with
  | Some e => raise e
  | None => mret tt
  end.

End Sys.

Export Sys.

(** ** The script *)

(** [cell.value if cell.value is not None else '' for cell in row] *)
Definition cell_values (r : row) : list value :=
  map (fun cell => if negb (is_None (cell_value cell))
                   then cell_value cell else VStr EmptyString) r.

(** def xlsx_to_csv(xlsx_path, csv_path). The worksheet wb.active is the
    workbook seen through its active sheet. *)
Definition xlsx_to_csv (E : env) (xlsx_path csv_path : string) : M unit :=
  wb ← load_workbook E xlsx_path;
  let ws := wb in
  _ ← with_open E csv_path
        (for_rows ws (fun row =>
           let values := cell_values row in
           writerow E csv_path values));
  _ ← wb_close E xlsx_path;
  print Stdout ("Converted " +:+ xlsx_path +:+ " to " +:+ csv_path).

Definition usage : string :=
  "Usage: python3 xlsx_to_csv.py input.xlsx output.csv".

(** The body of the script under the __main__ guard; [argv] is sys.argv, the
    program name first. *)
Definition main (E : env) (argv : list string) : M unit :=
  if negb (length argv =? 3)%nat then
    _ ← print Stderr usage;
    sys_exit 1
  else
    let xlsx_path := nth 1 argv EmptyString in
    let csv_path := nth 2 argv EmptyString in
    try_except (xlsx_to_csv E xlsx_path csv_path)
      (fun e => _ ← print Stderr ("Error: " +:+ exn_msg e); sys_exit 1).

(** The exit status of the process for a run of the script. *)
Definition exit_status (r : result unit) : Z :=
  match r with
  | Ok _ => 0
  | Exit status => status
  | Raise _ => 1
  end.

Definition run (E : env) (argv : list string) (w : world) : Z * world :=
  let (r, w') := main E argv w in (exit_status r, w').

(** What a trace printed on one stream. *)
Definition stream_of (out : stream) (t : list event) : list string :=
  omap (fun e => match e with
                 | Print o text => if decide (o = out) then Some text else None
                 | _ => None
                 end) t.

(** ** Reading CSV text back

    The script never reads its output. The two readers below state what the
    output means: [Reader.parse_csv] is a CSV parser with the quoting
    conventions of RFC 4180 (a quoted field may hold delimiters and line
    breaks, a doubled quote inside it is one quote; a blank line is a record
    without fields), and [Reader.split]/[Reader.lines] cut a text at every
    delimiter and at every line terminator without looking at quotes. *)

Module Reader.

Import Csv.

Inductive state :=
| START_RECORD
| START_FIELD
| IN_FIELD
| IN_QUOTED_FIELD
| QUOTE_IN_QUOTED_FIELD
| EAT_CRNL.

Record reader := Reader {
  st : state;
  field : string;               (* the field being read *)
  fields : list string;         (* the fields of the record being read *)
  records : list (list string)  (* the records read *)
}.

Definition init : reader := Reader START_RECORD EmptyString [] [].

Definition is_newline (c : ascii) : bool :=
  bool_decide (c = CR) || bool_decide (c = LF).

Definition add_char (s : state) (r : reader) (c : ascii) : reader :=
  Reader s (field r +:+ String c EmptyString) (fields r) (records r).

Definition save_field (s : state) (r : reader) : reader :=
  Reader s EmptyString (fields r ++ [field r]) (records r).

Definition end_record (r : reader) (c : ascii) : reader :=
  Reader (if bool_decide (c = CR) then EAT_CRNL else START_RECORD)
         EmptyString [] (records r ++ [fields r]).

Definition start_field (r : reader) (c : ascii) : reader :=
  if is_newline c then end_record (save_field START_FIELD r) c
  else if bool_decide (c = quotechar)
       then Reader IN_QUOTED_FIELD (field r) (fields r) (records r)
  else if bool_decide (c = delimiter) then save_field START_FIELD r
  else add_char IN_FIELD r c.

Definition start_record (r : reader) (c : ascii) : reader :=
  if is_newline c then end_record r c else start_field r c.

Definition step (r : reader) (c : ascii) : reader :=
  match st r with
  | START_RECORD => start_record r c
  | START_FIELD => start_field r c
  | IN_FIELD =>
      if is_newline c then end_record (save_field START_FIELD r) c
      else if bool_decide (c = delimiter) then save_field START_FIELD r
      else add_char IN_FIELD r c
  | IN_QUOTED_FIELD =>
      if bool_decide (c = quotechar)
      then Reader QUOTE_IN_QUOTED_FIELD (field r) (fields r) (records r)
      else add_char IN_QUOTED_FIELD r c
  | QUOTE_IN_QUOTED_FIELD =>
      if bool_decide (c = quotechar) then add_char IN_QUOTED_FIELD r c
      else if bool_decide (c = delimiter) then save_field START_FIELD r
      else if is_newline c then end_record (save_field START_FIELD r) c
      else add_char IN_FIELD r c
  | EAT_CRNL =>
      if bool_decide (c = LF)
      then Reader START_RECORD (field r) (fields r) (records r)
      else start_record r c
  end.

Fixpoint feed (r : reader) (text : string) : reader :=
  match text with
  | EmptyString => r
  | String c text' => feed (step r c) text'
  end.

(** At the end of the text a record that was begun is closed. *)
Definition finish (r : reader) : list (list string) :=
  match st r with
  | START_RECORD | EAT_CRNL => records r
  | _ => records r ++ [fields r ++ [field r]]
  end.

Definition parse_csv (text : string) : list (list string) :=
  finish (feed init text).

(** Cutting a text at every occurrence of [sep], as str.split(sep) does. *)
Fixpoint split (sep : ascii) (s : string) : list string :=
  match s with
  | EmptyString => [EmptyString]
  | String c s' =>
      if bool_decide (c = sep) then EmptyString :: split sep s'
      else match split sep s' with
           | [] => [String c EmptyString]
           | f :: fs => String c f :: fs
           end
  end.

(** The lines of a text whose lines end in the line terminator. *)
Fixpoint lines (s : string) : list string :=
  match s with
  | EmptyString => []
  | String c s' =>
      match s' with
      | String d s'' =>
          if bool_decide (c = CR) && bool_decide (d = LF)
          then EmptyString :: lines s''
          else match lines s' with
               | [] => [String c EmptyString]
               | l :: ls => String c l :: ls
               end
      | EmptyString => [String c EmptyString]
      end
  end.

(** Where the parser stands after the text of one field. *)
Inductive ended (s : string) (fs : list string) (rs : list (list string)) :
  reader -> Prop :=
| ended_empty : s = EmptyString -> ended s fs rs (Reader START_FIELD EmptyString fs rs)
| ended_plain : ended s fs rs (Reader IN_FIELD s fs rs)
| ended_quoted : ended s fs rs (Reader QUOTE_IN_QUOTED_FIELD s fs rs).

End Reader.

(** ** Derived notions used in the statements *)

(** The text of the records of a sheet, as the writer lays them out. *)
Definition csv_text (rows : list (list value)) : string :=
  foldr (fun values text => Csv.writerow values +:+ text) EmptyString rows.

Definition rows_written (t : list event) : list (list value) :=
  omap (fun e => match e with
                 | WriteRow _ values => Some values
                 | _ => None
                 end) t.

(** Texts without the delimiter and without the quote character. *)
Definition no_delimiter_or_quote (s : string) : bool :=
  negb (Csv.find_char s Csv.delimiter) && negb (Csv.find_char s Csv.quotechar).

(** Texts without the delimiter, the quote character and line breaks. *)
Definition plain (s : string) : bool := negb (Csv.any_special s).

Definition text_cell (ok : string -> bool) (c : cell) : bool :=
  match cell_value c with
  | VStr s => ok s
  | _ => false
  end.

(** A sheet whose cells all hold text accepted by [ok]. *)
Definition text_sheet (ok : string -> bool) (sheet : list row) : bool :=
  forallb (forallb (text_cell ok)) sheet.

(** A row without cells, or with one cell of empty text. *)
Definition blank_row (r : row) : bool :=
  match r with
  | [] => true
  | [c] => Csv.is_empty (Csv.field_text (cell_value c))
  | _ => false
  end.

(** Cutting every line of [content] at the delimiter gives back the cell
    values of [sheet]. *)
Definition splits_back (sheet : list row) (content : string) : Prop :=
  map (fun line => map VStr (Reader.split Csv.delimiter line))
      (Reader.lines content)
  = map (map cell_value) sheet.

Fixpoint count (p : event -> bool) (t : list event) : nat :=
  match t with
  | [] => 0
  | e :: t' => (if p e then 1 else 0) + count p t'
  end.

Definition is_load (e : event) : bool :=
  match e with LoadWorkbook _ => true | _ => false end.

Definition is_open (e : event) : bool :=
  match e with OpenWrite _ => true | _ => false end.

Definition is_file_io (e : event) : bool :=
  match e with
  | Print _ _ => false
  | _ => true
  end.

Definition converted (xlsx_path csv_path : string) : string :=
  ("Converted " +:+ xlsx_path +:+ " to " +:+ csv_path) +:+ newline.

Definition writes (csv_path : string) (rows : list row) : list event :=
  map (fun r => WriteRow csv_path (cell_values r)) rows.

(** The world once the first [k] rows went through the writer. *)
Definition after_rows (w : world) (csv_path content : string) (k : nat)
    (rows : list row) : world :=
  World (<[csv_path :=
             Plain (content +:+ csv_text (map cell_values (take k rows)))]> (fs w))
        (handles w) (readers w) (trace w ++ writes csv_path (take k rows)).

(** The world after the handler of the script printed the message of [e]. *)
Definition report (e : exn) (w : world) : world :=
  World (fs w) (handles w) (readers w)
        (trace w ++ [Print Stderr (("Error: " +:+ exn_msg e) +:+ newline)]).

(** The four ways a conversion can end. *)
Inductive outcome (E : env) (x c : string) (w : world) :
  result unit * world -> Prop :=
| load_failed :
    (forall wb, fs w !! x <> Some (Xlsx wb)) ->
    outcome E x c w (Raise (load_error E x), w)
| open_failed wb e :
    fs w !! x = Some (Xlsx wb) ->
    open_error E c = Some e ->
    outcome E x c w
      (Raise e, World (fs w) (handles w) (x :: readers w)
                      (trace w ++ [LoadWorkbook x]))
| conversion_failed wb e k :
    fs w !! x = Some (Xlsx wb) ->
    open_error E c = None ->
    (k <= length (wb_rows wb))%nat ->
    outcome E x c w
      (Raise e,
       World (<[c := Plain (csv_text (map cell_values (take k (wb_rows wb))))]>
                (fs w))
             (handles w) (x :: readers w)
             (trace w ++ [LoadWorkbook x; OpenWrite c]
                ++ writes c (take k (wb_rows wb)) ++ [CloseFile c]))
| conversion_done wb :
    fs w !! x = Some (Xlsx wb) ->
    open_error E c = None ->
    wb_rows_error wb = None ->
    outcome E x c w
      (Ok tt,
       World (<[c := Plain (csv_text (map cell_values (wb_rows wb)))]> (fs w))
             (handles w) (readers w)
             (trace w ++ [LoadWorkbook x; OpenWrite c]
                ++ writes c (wb_rows wb)
                ++ [CloseFile c; CloseWorkbook x; Print Stdout (converted x c)])).

(** ** Sample inputs *)

Definition no_failure : env :=
  Env (fun _ => Exception "File is not a zip file") (fun _ => None)
      (fun _ _ _ => None) (fun _ => None) (fun _ => None).

(** The disk is full once the destination holds ten bytes. *)
Definition disk_full : env :=
  Env (fun _ => Exception "File is not a zip file") (fun _ => None)
      (fun _ content _ =>
         if (10 <=? String.length content)%nat
         then Some (Exception "[Errno 28] No space left on device") else None)
      (fun _ => None) (fun _ => None).

Definition read_only_dir : env :=
  Env (fun _ => Exception "File is not a zip file")
      (fun _ => Some (Exception "[Errno 13] Permission denied"))
      (fun _ _ _ => None) (fun _ => None) (fun _ => None).

Definition sheet3 : list row :=
  [ [Cell (VStr "Name"); Cell (VStr "Qty")];
    [Cell (VStr "Widget"); Cell (VInt 10)];
    [Cell (VStr EmptyString); Cell VNone] ].

Definition world3 : world :=
  World {[ "in.xlsx" := Xlsx (Workbook sheet3 None) ]} [] [] [].

(** One text cell holding a, a line feed, b. *)
Definition sheet_line_break : list row :=
  [ [Cell (VStr (String "a" (String Csv.LF "b")))] ].

Definition world_line_break : world :=
  World {[ "in.xlsx" := Xlsx (Workbook sheet_line_break None) ]} [] [] [].

Definition sheet_plain : list row :=
  [ [Cell (VStr "Name"); Cell (VStr "Qty")];
    [Cell (VStr "Widget"); Cell (VStr EmptyString)] ].

Definition world_plain : world :=
  World {[ "in.xlsx" := Xlsx (Workbook sheet_plain None) ]} [] [] [].

(** A sheet whose data is damaged after its second row. *)
Definition world_damaged : world :=
  World {[ "in.xlsx" :=
             Xlsx (Workbook (take 2 sheet3)
                            (Some (Exception "not well-formed (invalid token)")))
        ]} [] [] [].

(** The destination already exists, with some content. *)
Definition world_existing : world :=
  World {[ "in.xlsx" := Xlsx (Workbook sheet3 None);
           "out.csv" := Plain "old content";
           "notes.txt" := Plain "keep me" ]} [] [] [].

(** * Properties *)

(** ** Texts *)

#[local] Arguments String.append !_ _ : simpl nomatch.

Lemma string_app_assoc (a b c : string) : (a +:+ b) +:+ c = a +:+ (b +:+ c).
Proof. induction a as [|x a IH]; simpl; [reflexivity | now rewrite IH]. Qed.

Lemma string_app_cons (x : ascii) (a b : string) :
  String x a +:+ b = String x (a +:+ b).
Proof. reflexivity. Qed.

Lemma string_app_nil_r (a : string) : a +:+ EmptyString = a.
Proof. induction a as [|x a IH]; simpl; [reflexivity | now rewrite IH]. Qed.

(** ** The writer on small records *)

Example writerow_name_qty :
  Csv.writerow [VStr "Name"; VStr "Qty"]
  = "Name,Qty" +:+ Csv.lineterminator.
Proof. reflexivity. Qed.

Example writerow_widget_10 :
  Csv.writerow [VStr "Widget"; VInt 10]
  = "Widget,10" +:+ Csv.lineterminator.
Proof. reflexivity. Qed.

Example writerow_a_comma_b :
  Csv.writerow [VStr "a,b"]
  = String Csv.quotechar ("a,b" +:+ String Csv.quotechar Csv.lineterminator).
Proof. reflexivity. Qed.

(** ** The writer and the parser *)

Section RoundTrip.

Import Csv Reader.

Lemma special_false (c : ascii) :
  special c = false ->
  c <> delimiter /\ c <> quotechar /\ c <> CR /\ c <> LF.
Proof.
  unfold special, lineterminator; simpl. rewrite orb_false_r. intros H.
  apply orb_false_elim in H as [H Hnl].
  apply orb_false_elim in H as [Hd Hq].
  apply orb_false_elim in Hnl as [Hcr Hlf].
  apply bool_decide_eq_false in Hd, Hq, Hcr, Hlf.
  repeat split; assumption.
Qed.

Lemma not_special_not_newline (c : ascii) :
  special c = false -> is_newline c = false.
Proof.
  intros H. apply special_false in H as (_ & _ & Hcr & Hlf).
  unfold is_newline. now rewrite !bool_decide_eq_false_2.
Qed.

Lemma join_append_data_plain (s : string) :
  any_special s = false -> join_append_data s = s.
Proof.
  induction s as [|c s IH]; simpl; [reflexivity |].
  intros H. apply orb_false_elim in H as [Hc Hs].
  apply special_false in Hc as (_ & Hq & _).
  rewrite bool_decide_eq_false_2 by assumption. now rewrite IH.
Qed.

Lemma join_append_plain (s : string) :
  any_special s = false -> join_append s false = s.
Proof.
  intros H. unfold join_append. rewrite H. simpl.
  now apply join_append_data_plain.
Qed.

Lemma join_append_special (s : string) (q : bool) :
  any_special s = true ->
  join_append s q
  = String quotechar (join_append_data s +:+ String quotechar EmptyString).
Proof. intros H. unfold join_append. rewrite H, orb_true_r. reflexivity. Qed.

Lemma feed_app (r : reader) (a b : string) :
  feed r (a +:+ b) = feed (feed r a) b.
Proof. revert r. induction a as [|c a IH]; simpl; intros r; [reflexivity | apply IH]. Qed.

Lemma feed_cons (r : reader) (c : ascii) (t : string) :
  feed r (String c t) = feed (step r c) t.
Proof. reflexivity. Qed.

Lemma step_start_quote f fs rs :
  step (Reader START_FIELD f fs rs) quotechar = Reader IN_QUOTED_FIELD f fs rs.
Proof. reflexivity. Qed.

Lemma step_quoted_quote f fs rs :
  step (Reader IN_QUOTED_FIELD f fs rs) quotechar
  = Reader QUOTE_IN_QUOTED_FIELD f fs rs.
Proof. reflexivity. Qed.

Lemma feed_in_field (s f : string) fs rs :
  any_special s = false ->
  feed (Reader IN_FIELD f fs rs) s = Reader IN_FIELD (f +:+ s) fs rs.
Proof.
  revert f. induction s as [|c s IH]; simpl; intros f H.
  - now rewrite string_app_nil_r.
  - apply orb_false_elim in H as [Hc Hs].
    pose proof (not_special_not_newline c Hc) as Hn.
    apply special_false in Hc as (Hd & _).
    unfold step; simpl. rewrite Hn, bool_decide_eq_false_2 by assumption.
    unfold add_char; simpl. rewrite IH by assumption.
    now rewrite string_app_assoc.
Qed.

Lemma feed_in_quoted (s f : string) fs rs :
  feed (Reader IN_QUOTED_FIELD f fs rs) (join_append_data s)
  = Reader IN_QUOTED_FIELD (f +:+ s) fs rs.
Proof.
  revert f. induction s as [|c s IH]; simpl; intros f.
  - now rewrite string_app_nil_r.
  - destruct (bool_decide (c = quotechar)) eqn:Hq; simpl.
    + apply bool_decide_eq_true in Hq. subst c.
      unfold step; simpl. unfold add_char; simpl.
      rewrite IH. now rewrite string_app_assoc.
    + unfold step; simpl. rewrite Hq. unfold add_char; simpl.
      rewrite IH. now rewrite string_app_assoc.
Qed.

Lemma feed_field (s : string) (q : bool) fs rs :
  ended s fs rs (feed (Reader START_FIELD EmptyString fs rs) (join_append s q)).
Proof.
  unfold join_append.
  destruct (q || any_special s) eqn:Hq.
  - rewrite feed_cons, step_start_quote, feed_app, feed_in_quoted.
    rewrite feed_cons, step_quoted_quote. constructor.
  - apply orb_false_elim in Hq as [_ Hs].
    rewrite join_append_data_plain by assumption.
    destruct s as [|c s]; simpl; [now constructor |].
    simpl in Hs. apply orb_false_elim in Hs as [Hc Hs].
    pose proof (not_special_not_newline c Hc) as Hn.
    apply special_false in Hc as (Hd & Hqc & _).
    unfold step; simpl. unfold start_field.
    rewrite Hn, !bool_decide_eq_false_2 by assumption.
    unfold add_char; simpl. rewrite feed_in_field by assumption. constructor.
Qed.

Lemma ended_delimiter s fs rs r :
  ended s fs rs r -> step r delimiter = Reader START_FIELD EmptyString (fs ++ [s]) rs.
Proof. intros [-> | |]; reflexivity. Qed.

Lemma ended_newline s fs rs r :
  ended s fs rs r ->
  feed r lineterminator = Reader START_RECORD EmptyString [] (rs ++ [fs ++ [s]]).
Proof. intros [-> | |]; reflexivity. Qed.

Lemma feed_fields (l : list string) : forall (s : string) fs rs,
  feed (Reader START_FIELD EmptyString fs rs)
       (join_fields (map render (s :: l)) +:+ lineterminator)
  = Reader START_RECORD EmptyString [] (rs ++ [fs ++ s :: l]).
Proof.
  induction l as [|s' l IH]; intros s fs rs.
  - simpl. rewrite feed_app.
    apply (ended_newline s fs rs). apply feed_field.
  - change (join_fields (map render (s :: s' :: l)))
      with (render s +:+ String delimiter (join_fields (map render (s' :: l)))).
    rewrite string_app_assoc, feed_app, string_app_cons, feed_cons.
    rewrite (ended_delimiter s fs rs) by apply feed_field.
    rewrite IH. now rewrite <- app_assoc.
Qed.

Lemma render_head (s : string) :
  render s = EmptyString \/
  exists c t, render s = String c t /\ is_newline c = false.
Proof.
  unfold render, join_append. destruct (any_special s) eqn:Hs; simpl.
  - right. eexists _, _. split; reflexivity.
  - rewrite join_append_data_plain by assumption.
    destruct s as [|c s]; [now left | right].
    simpl in Hs. apply orb_false_elim in Hs as [Hc _].
    exists c, s. split; [reflexivity | now apply not_special_not_newline].
Qed.

Lemma render_empty (s : string) : render s = EmptyString -> s = EmptyString.
Proof.
  unfold render, join_append. destruct (any_special s) eqn:Hs; simpl.
  - discriminate.
  - now rewrite join_append_data_plain.
Qed.

Lemma join_fields_head (s : string) (l : list string) :
  join_fields (map render (s :: l)) = EmptyString /\ s = EmptyString /\ l = [] \/
  exists c t, join_fields (map render (s :: l)) = String c t /\ is_newline c = false.
Proof.
  destruct l as [|s' l].
  - simpl. destruct (render_head s) as [H | H]; [left | now right].
    split; [assumption | split; [now apply render_empty | reflexivity]].
  - right.
    change (join_fields (map render (s :: s' :: l)))
      with (render s +:+ String delimiter (join_fields (map render (s' :: l)))).
    destruct (render_head s) as [-> | (c & t & -> & Hc)]; simpl.
    + eexists _, _. split; reflexivity.
    + eexists _, _. split; [reflexivity | assumption].
Qed.

Lemma feed_start_record (c : ascii) (t : string) f fs rs :
  is_newline c = false ->
  feed (Reader START_RECORD f fs rs) (String c t)
  = feed (Reader START_FIELD f fs rs) (String c t).
Proof.
  intros H. simpl. unfold step; simpl. unfold start_record. now rewrite H.
Qed.

Lemma writerow_fields (values : list value) :
  writerow values
  = (let rec := join_fields (map render (map field_text values)) in
     if (0 <? length values)%nat && is_empty rec
     then join_append EmptyString true else rec) +:+ lineterminator.
Proof. unfold writerow, render. now rewrite map_map. Qed.

Lemma feed_writerow (values : list value) rs :
  feed (Reader START_RECORD EmptyString [] rs) (writerow values)
  = Reader START_RECORD EmptyString [] (rs ++ [map field_text values]).
Proof.
  rewrite writerow_fields.
  destruct values as [|v values]; [reflexivity |].
  cbv zeta. change (map field_text (v :: values))
    with (field_text v :: map field_text values).
  change (0 <? length (v :: values))%nat with true. rewrite andb_true_l.
  destruct (join_fields_head (field_text v) (map field_text values))
    as [(Hrec & Hv & Hvs) | (c & t & Hrec & Hc)].
  - rewrite Hrec, Hv, Hvs. reflexivity.
  - pose proof (feed_fields (map field_text values) (field_text v) [] rs) as H.
    rewrite Hrec in *. simpl is_empty. cbv iota.
    rewrite string_app_cons in *.
    rewrite feed_start_record by assumption. exact H.
Qed.

Lemma feed_csv_text (rows : list (list value)) : forall rs,
  feed (Reader START_RECORD EmptyString [] rs) (csv_text rows)
  = Reader START_RECORD EmptyString [] (rs ++ map (map field_text) rows).
Proof.
  induction rows as [|values rows IH]; intros rs; simpl.
  - now rewrite app_nil_r.
  - rewrite feed_app, feed_writerow, IH. now rewrite <- app_assoc.
Qed.

(** Parsing the text of any sequence of records gives back the text of every
    field, record by record. *)
Lemma parse_csv_text (rows : list (list value)) :
  parse_csv (csv_text rows) = map (map field_text) rows.
Proof. unfold parse_csv, init. now rewrite feed_csv_text. Qed.

End RoundTrip.

(** ** Runs of the conversion *)

Section Runs.

Variable E : env.

Lemma release_head (p : string) (open : list string) :
  release p (p :: open) = open.
Proof. simpl. now rewrite decide_True. Qed.

Lemma world_eta (w : world) :
  World (fs w) (handles w) (readers w) (trace w) = w.
Proof. now destruct w. Qed.

Lemma content_of_lookup (w : world) (c content : string) :
  fs w !! c = Some (Plain content) -> content_of w c = content.
Proof. unfold content_of. now intros ->. Qed.

Lemma after_rows_0 (w : world) (c content : string) (rows : list row) :
  fs w !! c = Some (Plain content) -> after_rows w c content 0 rows = w.
Proof.
  intros H. unfold after_rows. rewrite take_0. simpl.
  rewrite string_app_nil_r, app_nil_r, insert_id by assumption.
  apply world_eta.
Qed.

Lemma bind_run {A B} (m : M A) (k : A -> M B) (w : world) :
  (m ≫= k) w
  = match m w with
    | (Ok a, w') => k a w'
    | (Raise e, w') => (Raise e, w')
    | (Exit n, w') => (Exit n, w')
    end.
Proof. reflexivity. Qed.

Lemma writerow_run (w : world) (c content : string) (values : list value) :
  fs w !! c = Some (Plain content) ->
  writerow E c values w
  = match write_error E c content (Csv.writerow values) with
    | Some e => (Raise e, w)
    | None =>
        (Ok tt, World (<[c := Plain (content +:+ Csv.writerow values)]> (fs w))
                      (handles w) (readers w)
                      (trace w ++ [WriteRow c values]))
    end.
Proof. intros H. unfold writerow. now rewrite (content_of_lookup w c content H). Qed.

(** The loop writes the rows in order and stops at the first write that
    fails. *)
Lemma for_each_writerow (c : string) (rows : list row) :
  forall (w : world) (content : string),
  fs w !! c = Some (Plain content) ->
  exists k r,
    for_each rows (fun row => writerow E c (cell_values row)) w
    = (r, after_rows w c content k rows) /\
    (r = Ok tt /\ k = length rows \/
     (exists e, r = Raise e) /\ (k < length rows)%nat).
Proof.
  induction rows as [|row rows IH]; intros w content Hc.
  - exists 0%nat, (Ok tt). split; [| now left].
    simpl. unfold mret, M_ret. now rewrite after_rows_0.
  - change (for_each (row :: rows) ?f)
      with (writerow E c (cell_values row) ≫= fun _ => for_each rows f).
    rewrite bind_run, (writerow_run w c content) by assumption.
    destruct (write_error E c content (Csv.writerow (cell_values row)))
      as [e|] eqn:Hw.
    + exists 0%nat, (Raise e). rewrite after_rows_0 by assumption.
      split; [reflexivity | right]. split; [now exists e | simpl; lia].
    + set (w1 := World _ _ _ _).
      destruct (IH w1 (content +:+ Csv.writerow (cell_values row)))
        as (k & r & Hrun & Hr).
      { unfold w1. simpl. apply lookup_insert_eq. }
      exists (S k), r. split.
      * rewrite Hrun. unfold after_rows, w1. simpl.
        rewrite insert_insert_eq, string_app_assoc, <- app_assoc.
        reflexivity.
      * destruct Hr as [[-> ->] | [He Hk]]; [now left | right].
        split; [assumption | simpl; lia].
Qed.

Lemma close_file_after_rows (x c : string) (w : world) (k : nat)
    (rows : list row) :
  close_file E c
    (after_rows (World (<[c := Plain EmptyString]> (fs w)) (c :: handles w)
                       (x :: readers w)
                       ((trace w ++ [LoadWorkbook x]) ++ [OpenWrite c]))
                c EmptyString k rows)
  = (match close_error E c with Some e => Raise e | None => Ok tt end,
     World (<[c := Plain (csv_text (map cell_values (take k rows)))]> (fs w))
           (handles w) (x :: readers w)
           (trace w ++ [LoadWorkbook x; OpenWrite c]
              ++ writes c (take k rows) ++ [CloseFile c])).
Proof.
  unfold close_file, after_rows. cbn [fs handles readers trace].
  rewrite release_head, insert_insert_eq.
  change (EmptyString +:+ ?t) with t. rewrite <- !app_assoc. simpl.
  destruct (close_error E c); reflexivity.
Qed.

(** Every run of the conversion ends in one of the four ways. *)
Lemma xlsx_to_csv_outcome (x c : string) (w : world) :
  outcome E x c w (xlsx_to_csv E x c w).
Proof.
  unfold xlsx_to_csv. rewrite bind_run. unfold load_workbook.
  destruct (fs w !! x) as [[wb|content]|] eqn:Hx;
    [| apply load_failed; intros wb'; congruence ..].
  cbv zeta. rewrite bind_run. unfold with_open. rewrite bind_run.
  unfold open_w. cbn [fs handles readers trace].
  destruct (open_error E c) as [e|] eqn:Ho.
  - now apply (open_failed E x c w wb e).
  - unfold closing, for_rows. rewrite bind_run.
    set (w0 := World _ _ _ _).
    destruct (for_each_writerow c (wb_rows wb) w0 EmptyString)
      as (k & r & Hrun & Hr).
    { unfold w0. cbn. apply lookup_insert_eq. }
    rewrite Hrun. unfold w0. clear Hrun w0.
    destruct Hr as [[-> ->] | [[e ->] Hk]].
    + destruct (wb_rows_error wb) as [e|] eqn:Hre; unfold raise, mret, M_ret.
      * rewrite close_file_after_rows.
        destruct (close_error E c); now apply conversion_failed.
      * rewrite bind_run, close_file_after_rows.
        destruct (close_error E c) as [e|] eqn:Hcl;
          [now apply conversion_failed |].
        rewrite bind_run. unfold wb_close. cbn [fs handles readers trace].
        destruct (wb_close_error E x) as [e|] eqn:Hwc;
          [now apply conversion_failed |].
        rewrite release_head.
        unfold print, emit. cbn [fs handles readers trace].
        rewrite firstn_all, <- !app_assoc. simpl.
        now apply conversion_done.
    + rewrite close_file_after_rows.
      destruct (close_error E c); apply conversion_failed; auto; lia.
Qed.

(** With two arguments the script is the conversion under the handler. *)
Lemma run_two_arguments (prog x c : string) (w : world) :
  run E [prog; x; c] w
  = match xlsx_to_csv E x c w with
    | (Ok _, w1) => (0%Z, w1)
    | (Raise e, w1) => (1%Z, report e w1)
    | (Exit n, w1) => (n, w1)
    end.
Proof.
  unfold run, main, try_except. simpl.
  destruct (xlsx_to_csv E x c w) as [[[]|e|n] w1]; reflexivity.
Qed.

Lemma run_usage (argv : list string) (w : world) :
  length argv <> 3%nat ->
  run E argv w
  = (1%Z, World (fs w) (handles w) (readers w)
                (trace w ++ [Print Stderr (usage +:+ newline)])).
Proof.
  intros H. unfold run, main.
  apply Nat.eqb_neq in H. rewrite H. reflexivity.
Qed.

Lemma stream_of_writes (out : stream) (c : string) (rows : list row) :
  stream_of out (writes c rows) = [].
Proof. induction rows as [|r rows IH]; [reflexivity | exact IH]. Qed.

Lemma stream_of_app (out : stream) (t1 t2 : list event) :
  stream_of out (t1 ++ t2) = stream_of out t1 ++ stream_of out t2.
Proof. unfold stream_of. apply omap_app. Qed.

Lemma rows_written_writes (c : string) (rows : list row) :
  rows_written (writes c rows) = map cell_values rows.
Proof.
  induction rows as [|r rows IH]; [reflexivity |].
  change (rows_written (writes c (r :: rows)))
    with (cell_values r :: rows_written (writes c rows)).
  now rewrite IH.
Qed.

Lemma rows_written_app (t1 t2 : list event) :
  rows_written (t1 ++ t2) = rows_written t1 ++ rows_written t2.
Proof. unfold rows_written. apply omap_app. Qed.

End Runs.

(** ** What a run leaves in the trace *)

Lemma count_app (p : event -> bool) (t1 t2 : list event) :
  count p (t1 ++ t2) = (count p t1 + count p t2)%nat.
Proof. induction t1 as [|e t1 IH]; simpl; [reflexivity | rewrite IH; lia]. Qed.

Lemma count_writes (p : event -> bool) (c : string) (rows : list row) :
  (forall values, p (WriteRow c values) = false) ->
  count p (writes c rows) = 0%nat.
Proof.
  intros Hp. induction rows as [|r rows IH]; simpl; [reflexivity |].
  now rewrite Hp, IH.
Qed.


(** A conversion that raises has printed nothing, and has opened the source
    and the destination at most once each. *)
Lemma outcome_raise (E : env) (x c : string) (w w1 : world) (e : exn) :
  outcome E x c w (Raise e, w1) ->
  exists t, trace w1 = trace w ++ t /\
    stream_of Stdout t = [] /\ stream_of Stderr t = [] /\
    (count is_load t <= 1)%nat /\ (count is_open t <= 1)%nat.
Proof.
  inversion 1; subst.
  - exists []. rewrite app_nil_r. repeat split; simpl; lia.
  - eexists. split; [reflexivity |]. repeat split; simpl; lia.
  - eexists. split; [reflexivity |].
    change (LoadWorkbook x :: OpenWrite c :: ?l)
      with ([LoadWorkbook x; OpenWrite c] ++ l).
    rewrite !stream_of_app, !stream_of_writes, !count_app.
    rewrite !count_writes by reflexivity. repeat split; simpl; lia.
Qed.

(** ** The claims about the command line and the handler *)

(** C5. With an argument list of any length other than three (the program
    name and two paths) the script prints the usage line to the error stream
    and exits with status 1; nothing else happens: the files, the open
    handles and the rest of the trace are as before, so no conversion ran. *)
Theorem usage_error_exits_1 (E : env) (argv : list string) (w : world) :
  length argv <> 3%nat ->
  run E argv w
  = (1%Z, World (fs w) (handles w) (readers w)
                (trace w ++ [Print Stderr (usage +:+ newline)])).
Proof. apply run_usage. Qed.

Lemma usage_error_exits_1_witness :
  run read_only_dir ["xlsx_to_csv.py"; "in.xlsx"] world3
  = (1%Z, World (fs world3) (handles world3) (readers world3)
                (trace world3 ++ [Print Stderr (usage +:+ newline)])).
Proof. apply (usage_error_exits_1 read_only_dir); simpl; lia. Defined.

(** C9. On a wrong argument count the exit with status 1 happens before
    any file input or output: every event of the run is a print, no source
    was opened, no destination was created, truncated or written, and the
    file system is the one the run started from. *)
Theorem usage_error_before_io (E : env) (argv : list string) (w : world) :
  length argv <> 3%nat ->
  (run E argv w).1 = 1%Z /\
  fs (run E argv w).2 = fs w /\
  handles (run E argv w).2 = handles w /\
  readers (run E argv w).2 = readers w /\
  exists t, trace (run E argv w).2 = trace w ++ t /\
            Forall (fun e => is_file_io e = false) t /\
            count is_load t = 0%nat /\ count is_open t = 0%nat.
Proof.
  intros H. rewrite (run_usage E argv w H). simpl.
  repeat split. eexists. split; [reflexivity |].
  repeat split. now repeat constructor.
Qed.

Lemma usage_error_before_io_witness :
  (run no_failure ["xlsx_to_csv.py"; "in.xlsx"; "out.csv"; "extra"] world3).1
  = 1%Z /\
  fs (run no_failure ["xlsx_to_csv.py"; "in.xlsx"; "out.csv"; "extra"] world3).2
  = fs world3.
Proof.
  pose proof (usage_error_before_io no_failure
                ["xlsx_to_csv.py"; "in.xlsx"; "out.csv"; "extra"] world3) as H.
  destruct H as (H1 & H2 & _); [simpl; lia |]. split; assumption.
Defined.

(** C10. When the source cannot be opened as a spreadsheet (no file at the
    path, or a file that is no spreadsheet container), the script reports the
    error and exits with status 1 without having touched the destination:
    load_workbook runs before open, so the file system, and the destination
    in particular, is unchanged and no handle on it was ever taken. *)
Theorem failed_load_leaves_destination (E : env) (prog x c : string)
    (w : world) :
  (forall wb, fs w !! x <> Some (Xlsx wb)) ->
  run E [prog; x; c] w = (1%Z, report (load_error E x) w) /\
  fs (run E [prog; x; c] w).2 = fs w /\
  fs (run E [prog; x; c] w).2 !! c = fs w !! c /\
  handles (run E [prog; x; c] w).2 = handles w /\
  exists t, trace (run E [prog; x; c] w).2 = trace w ++ t /\
            count is_open t = 0%nat /\
            Forall (fun e => is_file_io e = false) t.
Proof.
  intros Hx. rewrite run_two_arguments.
  assert (xlsx_to_csv E x c w = (Raise (load_error E x), w)) as ->.
  { unfold xlsx_to_csv. rewrite bind_run. unfold load_workbook.
    destruct (fs w !! x) as [[wb|content]|] eqn:Hl; try reflexivity.
    now destruct (Hx wb). }
  simpl. repeat split. eexists. split; [reflexivity |].
  split; [reflexivity | now repeat constructor].
Qed.

Lemma failed_load_leaves_destination_witness :
  run no_failure ["xlsx_to_csv.py"; "missing.xlsx"; "out.csv"] world3
  = (1%Z, report (load_error no_failure "missing.xlsx") world3) /\
  fs (run no_failure ["xlsx_to_csv.py"; "missing.xlsx"; "out.csv"] world3).2
    !! "out.csv" = None.
Proof.
  pose proof (failed_load_leaves_destination no_failure "xlsx_to_csv.py"
                "missing.xlsx" "out.csv" world3) as H.
  destruct H as (H1 & _ & H3 & _).
  - intros wb. vm_compute. discriminate.
  - split; [exact H1 | rewrite H3; reflexivity].
Defined.

(** C6. With two arguments, whenever the conversion raises (in particular
    when the source is missing or is no spreadsheet, or when the destination
    cannot be opened for writing), the handler prints the line made of
    Error:, a space and the message of the exception to the error stream and
    the process exits with status 1. The handler runs once and starts nothing
    again: the conversion printed nothing, opened the source at most once and
    the destination at most once, and the error line is the last event. *)
Theorem conversion_error_reported (E : env) (prog x c : string) (w : world) :
  (forall wb, fs w !! x <> Some (Xlsx wb)) \/
  (exists e, open_error E c = Some e) \/
  (exists e w1, xlsx_to_csv E x c w = (Raise e, w1)) ->
  exists e w1 t,
    xlsx_to_csv E x c w = (Raise e, w1) /\
    run E [prog; x; c] w = (1%Z, report e w1) /\
    trace (report e w1)
    = trace w ++ t ++ [Print Stderr (("Error: " +:+ exn_msg e) +:+ newline)] /\
    stream_of Stdout t = [] /\ stream_of Stderr t = [] /\
    (count is_load t <= 1)%nat /\ (count is_open t <= 1)%nat.
Proof.
  intros Hfail.
  pose proof (xlsx_to_csv_outcome E x c w) as Hout.
  destruct (xlsx_to_csv E x c w) as [r w1] eqn:Hrun.
  assert (exists e, r = Raise e) as [e ->].
  { inversion Hout; subst; try (now eexists).
    destruct Hfail as [Hx | [[e He] | (e & w2 & He)]].
    - now destruct (Hx wb).
    - congruence.
    - discriminate. }
  destruct (outcome_raise E x c w w1 e Hout) as (t & Ht & Hso & Hse & Hl & Ho).
  exists e, w1, t. split; [reflexivity |].
  split; [rewrite run_two_arguments, Hrun; reflexivity |].
  split; [unfold report; simpl; rewrite Ht; now rewrite <- app_assoc |].
  repeat split; assumption.
Qed.

Lemma conversion_error_reported_witness :
  exists e w1 t,
    xlsx_to_csv read_only_dir "in.xlsx" "out.csv" world3 = (Raise e, w1) /\
    run read_only_dir ["xlsx_to_csv.py"; "in.xlsx"; "out.csv"] world3
    = (1%Z, report e w1) /\
    trace (report e w1)
    = trace world3 ++ t
      ++ [Print Stderr (("Error: " +:+ exn_msg e) +:+ newline)] /\
    stream_of Stdout t = [] /\ stream_of Stderr t = [] /\
    (count is_load t <= 1)%nat /\ (count is_open t <= 1)%nat.
Proof.
  apply (conversion_error_reported read_only_dir "xlsx_to_csv.py").
  right; left. eexists. reflexivity.
Defined.

(** C7. With two arguments, when the conversion raises nothing the process
    exits with status 0, and the only thing printed is the line Converted,
    the source path, to, the destination path, on standard output. That print
    is the last event of the run: every record was written, the destination
    file was closed and the workbook was closed before it; no handle and no
    reader is left open. *)
Theorem success_message_last (E : env) (prog x c : string) (w w1 : world) :
  xlsx_to_csv E x c w = (Ok tt, w1) ->
  run E [prog; x; c] w = (0%Z, w1) /\
  handles w1 = handles w /\ readers w1 = readers w /\
  exists wb t,
    fs w !! x = Some (Xlsx wb) /\
    trace w1 = trace w ++ t /\
    t = [LoadWorkbook x; OpenWrite c] ++ writes c (wb_rows wb)
        ++ [CloseFile c; CloseWorkbook x; Print Stdout (converted x c)] /\
    stream_of Stdout t = [converted x c] /\
    stream_of Stderr t = [].
Proof.
  intros Hrun.
  pose proof (xlsx_to_csv_outcome E x c w) as Hout. rewrite Hrun in Hout.
  split; [rewrite run_two_arguments, Hrun; reflexivity |].
  inversion Hout; subst. simpl. repeat split.
  exists wb. eexists. split; [assumption |]. split; [reflexivity |].
  split; [reflexivity |].
  change (LoadWorkbook x :: OpenWrite c :: ?l)
    with ([LoadWorkbook x; OpenWrite c] ++ l).
  rewrite !stream_of_app, !stream_of_writes. split; reflexivity.
Qed.

Lemma success_message_last_witness :
  run no_failure ["xlsx_to_csv.py"; "in.xlsx"; "out.csv"] world3
  = (0%Z, (xlsx_to_csv no_failure "in.xlsx" "out.csv" world3).2) /\
  stream_of Stdout
    (trace (xlsx_to_csv no_failure "in.xlsx" "out.csv" world3).2)
  = [converted "in.xlsx" "out.csv"].
Proof.
  destruct (success_message_last no_failure "xlsx_to_csv.py" "in.xlsx"
              "out.csv" world3
              (xlsx_to_csv no_failure "in.xlsx" "out.csv" world3).2)
    as (H & _).
  - vm_compute. reflexivity.
  - split; [exact H | vm_compute; reflexivity].
Defined.

(** C8. However the conversion ends, normally or by an exception raised
    while the destination is open, the handle on the destination is released
    before the conversion returns or lets the exception through: the open
    handles are those from before the call and, once the destination was
    opened, its close follows the last record written. When the conversion
    returns normally the workbook is closed after that, and no reader is left
    open. *)
Theorem output_handle_released (E : env) (x c : string) (w w' : world)
    (r : result unit) :
  xlsx_to_csv E x c w = (r, w') ->
  handles w' = handles w /\
  exists t, trace w' = trace w ++ t /\
    (In (OpenWrite c) t ->
     exists rows tail,
       t = [LoadWorkbook x; OpenWrite c] ++ writes c rows
           ++ CloseFile c :: tail /\
       (tail = [] \/
        tail = [CloseWorkbook x; Print Stdout (converted x c)])) /\
    (r = Ok tt ->
     readers w' = readers w /\
     exists rows,
       t = [LoadWorkbook x; OpenWrite c] ++ writes c rows
           ++ [CloseFile c; CloseWorkbook x; Print Stdout (converted x c)]).
Proof.
  intros Hrun.
  pose proof (xlsx_to_csv_outcome E x c w) as Hout. rewrite Hrun in Hout.
  inversion Hout; subst; simpl; (split; [reflexivity |]).
  - exists []. rewrite app_nil_r. split; [reflexivity |].
    split; [intros [] | discriminate].
  - eexists. split; [reflexivity |].
    split; [| discriminate].
    intros [Hin | []]. discriminate.
  - eexists. split; [reflexivity |].
    split; [| discriminate].
    intros _. exists (take k (wb_rows wb)), []. split; [reflexivity | now left].
  - eexists. split; [reflexivity |]. split.
    + intros _. eexists (wb_rows wb), _. split; [reflexivity | now right].
    + intros _. split; [reflexivity |]. now exists (wb_rows wb).
Qed.

Lemma output_handle_released_witness :
  handles (xlsx_to_csv disk_full "in.xlsx" "out.csv" world3).2
  = handles world3 /\
  (xlsx_to_csv disk_full "in.xlsx" "out.csv" world3).1
  = Raise (Exception "[Errno 28] No space left on device").
Proof.
  destruct (output_handle_released disk_full "in.xlsx" "out.csv" world3
              (xlsx_to_csv disk_full "in.xlsx" "out.csv" world3).2
              (xlsx_to_csv disk_full "in.xlsx" "out.csv" world3).1)
    as (H & _).
  - now destruct (xlsx_to_csv disk_full "in.xlsx" "out.csv" world3).
  - split; [exact H | vm_compute; reflexivity].
Defined.

(** ** The claims about the records *)

Lemma lookup_map {A B} (f : A -> B) (l : list A) (i : nat) :
  map f l !! i = f <$> (l !! i).
Proof.
  revert i. induction l as [|a l IH]; intros [|i]; simpl; try reflexivity.
  apply IH.
Qed.

Lemma parse_writerow (values : list value) :
  Reader.parse_csv (Csv.writerow values) = [map Csv.field_text values].
Proof.
  pose proof (parse_csv_text [values]) as H. simpl in H.
  now rewrite string_app_nil_r in H.
Qed.

(** C1. A conversion that completes on a sheet of N rows has written N
    records: one writerow call per row, in sheet order, each with one value
    per cell of its row in column order; the destination then holds the text
    of these records, and parsing that text gives N records, the k-th with as
    many fields as the k-th row has cells. *)
Theorem rows_become_records (E : env) (x c : string) (w w' : world)
    (wb : workbook) :
  fs w !! x = Some (Xlsx wb) ->
  xlsx_to_csv E x c w = (Ok tt, w') ->
  (exists t, trace w' = trace w ++ t /\
             rows_written t = map cell_values (wb_rows wb)) /\
  fs w' !! c = Some (Plain (csv_text (map cell_values (wb_rows wb)))) /\
  Reader.parse_csv (csv_text (map cell_values (wb_rows wb)))
  = map (fun r => map Csv.field_text (cell_values r)) (wb_rows wb) /\
  length (Reader.parse_csv (csv_text (map cell_values (wb_rows wb))))
  = length (wb_rows wb) /\
  Forall2 (fun (record : list string) (r : row) => length record = length r)
          (Reader.parse_csv (csv_text (map cell_values (wb_rows wb))))
          (wb_rows wb).
Proof.
  intros Hx Hrun.
  pose proof (xlsx_to_csv_outcome E x c w) as Hout. rewrite Hrun in Hout.
  inversion Hout as [| | | wb' Hx' Ho Hre]; subst.
  assert (wb' = wb) as -> by congruence.
  rewrite parse_csv_text, map_map.
  split; [| split; [| split; [| split]]].
  - eexists. split; [reflexivity |].
    change (LoadWorkbook x :: OpenWrite c :: ?l)
      with ([LoadWorkbook x; OpenWrite c] ++ l).
    rewrite !rows_written_app, rows_written_writes. simpl.
    now rewrite app_nil_r.
  - simpl. apply lookup_insert_eq.
  - reflexivity.
  - now rewrite length_map.
  - generalize (wb_rows wb). clear. intros rows.
    induction rows as [|r rows IH]; simpl; constructor; [| exact IH].
    unfold cell_values. now rewrite !length_map.
Qed.

Lemma rows_become_records_witness :
  fs (xlsx_to_csv no_failure "in.xlsx" "out.csv" world3).2 !! "out.csv"
  = Some (Plain (csv_text (map cell_values sheet3))) /\
  length (Reader.parse_csv (csv_text (map cell_values sheet3))) = 3%nat.
Proof.
  destruct (rows_become_records no_failure "in.xlsx" "out.csv" world3
              (xlsx_to_csv no_failure "in.xlsx" "out.csv" world3).2
              (Workbook sheet3 None))
    as (_ & H & _ & Hn & _).
  - vm_compute. reflexivity.
  - vm_compute. reflexivity.
  - split; [exact H | exact Hn].
Defined.

(** The three rows of the sample sheet give the lines Name,Qty and Widget,10
    and a line that is a single comma. *)
Example sample_sheet_text :
  csv_text (map cell_values sheet3)
  = "Name,Qty" +:+ Csv.lineterminator +:+ "Widget,10" +:+ Csv.lineterminator
    +:+ "," +:+ Csv.lineterminator.
Proof. reflexivity. Qed.

(** C2. The value handed to the writer for a cell is the empty text when the
    cell holds None, and the stored value itself otherwise, so an empty text
    stays an empty text; and in both of these cases the field read back from
    the record at the position of the cell is the empty text. *)
Theorem none_becomes_empty_field (r : row) (i : nat) (cell : cell) :
  r !! i = Some cell ->
  (cell_value cell = VNone -> cell_values r !! i = Some (VStr EmptyString)) /\
  (cell_value cell = VStr EmptyString ->
   cell_values r !! i = Some (VStr EmptyString)) /\
  (cell_value cell <> VNone -> cell_values r !! i = Some (cell_value cell)) /\
  (cell_value cell = VNone \/ cell_value cell = VStr EmptyString ->
   exists fields,
     Reader.parse_csv (Csv.writerow (cell_values r)) = [fields] /\
     fields !! i = Some EmptyString).
Proof.
  intros Hi.
  assert (cell_values r !! i
          = Some (if negb (is_None (cell_value cell))
                  then cell_value cell else VStr EmptyString)) as Hv.
  { unfold cell_values. rewrite lookup_map. unfold row in *. now rewrite Hi. }
  split; [| split; [| split]].
  - intros Hn. now rewrite Hv, Hn.
  - intros Hn. now rewrite Hv, Hn.
  - intros Hn. rewrite Hv. now destruct (cell_value cell).
  - intros Hn. eexists. split; [apply parse_writerow |].
    rewrite lookup_map, Hv. now destruct Hn as [-> | ->].
Qed.

Lemma none_becomes_empty_field_witness :
  cell_values [Cell (VStr EmptyString); Cell VNone] !! 1%nat
  = Some (VStr EmptyString).
Proof.
  destruct (none_becomes_empty_field [Cell (VStr EmptyString); Cell VNone]
              1 (Cell VNone)) as (H & _).
  - reflexivity.
  - apply H. reflexivity.
Defined.

Lemma find_char_special (s : string) (ch : ascii) :
  Csv.find_char s ch = true -> Csv.special ch = true ->
  Csv.any_special s = true.
Proof.
  intros Hin Hsp. induction s as [|d s IH]; simpl in *; [discriminate |].
  apply orb_true_iff in Hin as [Hd | Hs].
  - apply bool_decide_eq_true in Hd. subst d. now rewrite Hsp.
  - rewrite (IH Hs). apply orb_true_r.
Qed.

Lemma join_fields_nonempty (fields : list string) (f : string) :
  In f fields -> f <> EmptyString ->
  Csv.is_empty (Csv.join_fields fields) = false.
Proof.
  destruct fields as [|f' [|g l]]; simpl.
  - intros [].
  - intros [-> | []] Hf. now destruct f.
  - intros _ _. now destruct f'.
Qed.

(** C3. A field holding the delimiter, the quote character, a carriage
    return or a line feed is laid out between quote characters with every
    quote character of its own doubled; the record carries it in that form at
    its position, and parsing the text of any sheet that holds the field
    gives the field back unchanged, with its neighbours and the records
    around it. *)
Theorem special_fields_are_quoted (s : string) (ch : ascii)
    (before after : list value) (above below : list (list value)) :
  Csv.find_char s ch = true ->
  ch = Csv.delimiter \/ ch = Csv.quotechar \/ ch = Csv.CR \/ ch = Csv.LF ->
  Csv.render s
  = String Csv.quotechar
      (Csv.join_append_data s +:+ String Csv.quotechar EmptyString) /\
  Csv.writerow (before ++ VStr s :: after)
  = Csv.join_fields
      (map Csv.render (map Csv.field_text before)
       ++ Csv.render s :: map Csv.render (map Csv.field_text after))
    +:+ Csv.lineterminator /\
  Reader.parse_csv (csv_text (above ++ (before ++ VStr s :: after) :: below))
  = map (map Csv.field_text) above
    ++ (map Csv.field_text before ++ s :: map Csv.field_text after)
    :: map (map Csv.field_text) below.
Proof.
  intros Hin Hch.
  assert (Csv.any_special s = true) as Hsp.
  { apply (find_char_special s ch Hin).
    destruct Hch as [-> | [-> | [-> | ->]]]; reflexivity. }
  assert (Csv.render s
          = String Csv.quotechar
              (Csv.join_append_data s +:+ String Csv.quotechar EmptyString))
    as Hr by now apply join_append_special.
  split; [exact Hr | split].
  - rewrite writerow_fields. cbv zeta.
    rewrite !map_app. simpl map.
    rewrite (join_fields_nonempty _ (Csv.render s)), andb_false_r.
    + reflexivity.
    + apply in_or_app. right. now left.
    + rewrite Hr. discriminate.
  - rewrite parse_csv_text, map_app. simpl. now rewrite map_app.
Qed.

Lemma special_fields_are_quoted_witness :
  Csv.render "a,b"
  = String Csv.quotechar ("a,b" +:+ String Csv.quotechar EmptyString) /\
  Reader.parse_csv (csv_text [[VStr "a,b"]]) = [["a,b"]].
Proof.
  destruct (special_fields_are_quoted "a,b" Csv.delimiter [] [] [] [])
    as (H1 & _ & H3).
  - reflexivity.
  - now left.
  - split; [exact H1 | exact H3].
Defined.

(** ** Cutting the output at delimiters and line ends *)

Section Split.

Import Csv Reader.

Lemma find_char_app (a b : string) (c : ascii) :
  find_char (a +:+ b) c = find_char a c || find_char b c.
Proof.
  induction a as [|d a IH]; simpl; [reflexivity |].
  now rewrite IH, orb_assoc.
Qed.

Lemma plain_no_char (s : string) (c : ascii) :
  any_special s = false -> special c = true -> find_char s c = false.
Proof.
  intros Hs Hc. destruct (find_char s c) eqn:Hf; [| reflexivity].
  now rewrite (find_char_special s c Hf Hc) in Hs.
Qed.

Lemma find_char_head (d c : ascii) (s : string) :
  find_char (String d s) c = false -> d <> c /\ find_char s c = false.
Proof.
  simpl. intros H. apply orb_false_elim in H as [Hd Hs].
  apply bool_decide_eq_false in Hd. split; [congruence | assumption].
Qed.

Lemma split_no_delimiter (s : string) :
  find_char s delimiter = false -> split delimiter s = [s].
Proof.
  induction s as [|c s IH]; [reflexivity |].
  intros H. apply find_char_head in H as [Hc Hs].
  simpl. rewrite bool_decide_eq_false_2 by assumption. now rewrite IH.
Qed.

Lemma split_app (s t : string) :
  find_char s delimiter = false ->
  split delimiter (s +:+ String delimiter t) = s :: split delimiter t.
Proof.
  induction s as [|c s IH]; [reflexivity |].
  intros H. apply find_char_head in H as [Hc Hs].
  simpl. rewrite bool_decide_eq_false_2 by assumption. now rewrite IH.
Qed.

Lemma split_join_fields (ss : list string) :
  ss <> [] ->
  Forall (fun s => any_special s = false) ss ->
  split delimiter (join_fields ss) = ss.
Proof.
  induction ss as [|s ss IH]; [congruence |]. intros _ Hall.
  inversion Hall as [|? ? Hs Hss]; subst.
  assert (find_char s delimiter = false) as Hd
    by now apply plain_no_char.
  destruct ss as [|s' ss]; [now apply split_no_delimiter |].
  change (join_fields (s :: s' :: ss))
    with (s +:+ String delimiter (join_fields (s' :: ss))).
  rewrite split_app by assumption. now rewrite IH.
Qed.

Lemma join_fields_no_CR (ss : list string) :
  Forall (fun s => any_special s = false) ss ->
  find_char (join_fields ss) CR = false.
Proof.
  induction ss as [|s ss IH]; [reflexivity |]. intros Hall.
  inversion Hall as [|? ? Hs Hss]; subst.
  assert (find_char s CR = false) as Hd by now apply plain_no_char.
  destruct ss as [|s' ss]; [assumption |].
  change (join_fields (s :: s' :: ss))
    with (s +:+ String delimiter (join_fields (s' :: ss))).
  rewrite find_char_app, Hd.
  change (find_char (String delimiter ?t) CR)
    with (bool_decide (CR = delimiter) || find_char t CR).
  now rewrite IH.
Qed.

Lemma lines_cons (a : ascii) (s : string) :
  a <> CR -> s <> EmptyString ->
  lines (String a s)
  = match lines s with
    | [] => [String a EmptyString]
    | l :: ls => String a l :: ls
    end.
Proof.
  intros Ha Hs. destruct s as [|d s]; [congruence |].
  change (lines (String a (String d s)))
    with (if bool_decide (a = CR) && bool_decide (d = LF)
          then EmptyString :: lines s
          else match lines (String d s) with
               | [] => [String a EmptyString]
               | l :: ls => String a l :: ls
               end).
  now rewrite bool_decide_eq_false_2.
Qed.

Lemma lines_record (l rest : string) :
  find_char l CR = false ->
  lines ((l +:+ lineterminator) +:+ rest) = l :: lines rest.
Proof.
  induction l as [|a l IH]; [reflexivity |].
  intros H. apply find_char_head in H as [Ha Hl].
  rewrite !string_app_cons, lines_cons.
  - now rewrite IH.
  - congruence.
  - destruct l; discriminate.
Qed.

(** The values and the record of a row of plain text cells. *)
Lemma plain_row_values (r : row) :
  forallb (text_cell plain) r = true ->
  exists ss, map cell_value r = map VStr ss /\ cell_values r = map VStr ss /\
             Forall (fun s => any_special s = false) ss /\
             length ss = length r.
Proof.
  induction r as [|c r IH]; simpl.
  - intros _. now exists [].
  - intros H. apply andb_true_iff in H as [Hc Hr].
    destruct (IH Hr) as (ss & H1 & H2 & H3 & H4).
    unfold text_cell in Hc. destruct (cell_value c) as [|s| | |] eqn:Hv;
      try discriminate.
    exists (s :: ss). simpl. rewrite H1, H2, H4. repeat split.
    constructor; [| assumption].
    unfold plain in Hc. now apply negb_true_iff in Hc.
Qed.

Lemma plain_row_record (ss : list string) :
  Forall (fun s => any_special s = false) ss ->
  ss <> [] -> ss <> [EmptyString] ->
  writerow (map VStr ss) = join_fields ss +:+ lineterminator.
Proof.
  intros Hall Hne Hne1. rewrite writerow_fields. cbv zeta.
  assert (map field_text (map VStr ss) = ss) as ->
    by (rewrite map_map; apply map_id).
  assert (map render ss = ss) as ->.
  { clear Hne Hne1. induction Hall as [|s ss Hs _ IH]; [reflexivity |].
    simpl. unfold render at 1. now rewrite join_append_plain, IH. }
  destruct ss as [|s [|s' ss]]; [congruence | |].
  - destruct s; [congruence | reflexivity].
  - simpl. destruct s; reflexivity.
Qed.

Lemma plain_sheet_splits_back (sheet : list row) :
  text_sheet plain sheet = true ->
  forallb (fun r => negb (blank_row r)) sheet = true ->
  splits_back sheet (csv_text (map cell_values sheet)).
Proof.
  unfold splits_back, text_sheet.
  induction sheet as [|r sheet IH]; [reflexivity |]. simpl.
  intros Ht Hb.
  apply andb_true_iff in Ht as [Hr Ht]. apply andb_true_iff in Hb as [Hbr Hb].
  destruct (plain_row_values r Hr) as (ss & H1 & H2 & H3 & H4).
  assert (ss <> [] /\ ss <> [EmptyString]) as [Hne Hne1].
  { apply negb_true_iff in Hbr.
    destruct r as [|c [|c' r]]; simpl in *.
    - discriminate.
    - destruct ss as [|s [|? ?]]; try discriminate.
      injection H1 as H1. rewrite H1 in Hbr. simpl in Hbr.
      split; [discriminate | intros [= ->]; discriminate].
    - destruct ss as [|s [|? ?]]; try discriminate.
      split; discriminate. }
  rewrite H1, H2, plain_row_record by assumption.
  rewrite lines_record by now apply join_fields_no_CR.
  simpl. rewrite split_join_fields by assumption.
  now rewrite IH.
Qed.

End Split.

Lemma conversion_done_content (E : env) (x c : string) (w w' : world)
    (wb : workbook) :
  fs w !! x = Some (Xlsx wb) ->
  xlsx_to_csv E x c w = (Ok tt, w') ->
  fs w' !! c = Some (Plain (csv_text (map cell_values (wb_rows wb)))).
Proof.
  intros Hx Hrun.
  pose proof (xlsx_to_csv_outcome E x c w) as Hout. rewrite Hrun in Hout.
  inversion Hout as [| | | wb' Hx' Ho Hre]; subst.
  assert (wb' = wb) as -> by congruence.
  simpl. apply lookup_insert_eq.
Qed.

(** A text with a line break and without delimiter or quote character is
    written between quotes, so cutting the output at line ends and delimiters
    does not give it back: the sentence of C4 fails as it stands. *)
Lemma split_round_trip_counterexample :
  ~ (forall (E : env) (x c : string) (w w' : world) (wb : workbook),
       fs w !! x = Some (Xlsx wb) ->
       xlsx_to_csv E x c w = (Ok tt, w') ->
       text_sheet no_delimiter_or_quote (wb_rows wb) = true ->
       exists content,
         fs w' !! c = Some (Plain content) /\
         splits_back (wb_rows wb) content).
Proof.
  intros H.
  destruct (H no_failure "in.xlsx" "out.csv" world_line_break
              (xlsx_to_csv no_failure "in.xlsx" "out.csv" world_line_break).2
              (Workbook sheet_line_break None))
    as (content & Hc & Hs); [vm_compute; reflexivity .. |].
  vm_compute in Hc. injection Hc as <-.
  vm_compute in Hs. discriminate.
Qed.

(** The same failure for a row of one empty text, which the writer lays out
    as two quote characters, and for a row without cells, whose empty line
    cuts into one empty field. *)
Example lone_empty_text_not_split_back :
  ~ splits_back [[Cell (VStr EmptyString)]]
      (csv_text (map cell_values [[Cell (VStr EmptyString)]])) /\
  ~ splits_back [[]] (csv_text (map cell_values [[]])).
Proof. split; intros H; vm_compute in H; discriminate. Qed.

(** C4, amended. For a sheet of text cells that hold no delimiter, no quote
    character and no line break, in which no row is without cells or made of
    one empty text, a conversion that completes leaves a destination whose
    lines, cut at the delimiter, are exactly the cell values of the sheet. *)
Theorem plain_text_round_trip (E : env) (x c : string) (w w' : world)
    (wb : workbook) :
  fs w !! x = Some (Xlsx wb) ->
  xlsx_to_csv E x c w = (Ok tt, w') ->
  text_sheet plain (wb_rows wb) = true ->
  forallb (fun r => negb (blank_row r)) (wb_rows wb) = true ->
  exists content,
    fs w' !! c = Some (Plain content) /\
    splits_back (wb_rows wb) content.
Proof.
  intros Hx Hrun Ht Hb. eexists. split.
  - exact (conversion_done_content E x c w w' wb Hx Hrun).
  - now apply plain_sheet_splits_back.
Qed.

Lemma plain_text_round_trip_witness :
  exists content,
    fs (xlsx_to_csv no_failure "in.xlsx" "out.csv" world_plain).2 !! "out.csv"
    = Some (Plain content) /\
    splits_back sheet_plain content.
Proof.
  apply (plain_text_round_trip no_failure "in.xlsx" "out.csv" world_plain
           (xlsx_to_csv no_failure "in.xlsx" "out.csv" world_plain).2
           (Workbook sheet_plain None));
    vm_compute; reflexivity.
Defined.

(** ** Further properties of the script *)

Lemma outcome_no_exit (E : env) (x c : string) (w w' : world) (n : Z) :
  ~ outcome E x c w (Exit n, w').
Proof. inversion 1. Qed.


Lemma outcome_frame (E : env) (x c p : string) (w w' : world)
    (r : result unit) :
  outcome E x c w (r, w') -> p <> c -> fs w' !! p = fs w !! p.
Proof.
  inversion 1; subst; intros Hp; simpl; try reflexivity;
    now apply lookup_insert_ne.
Qed.

Lemma three_arguments (argv : list string) :
  length argv = 3%nat ->
  argv = [nth 0 argv EmptyString; nth 1 argv EmptyString;
          nth 2 argv EmptyString].
Proof.
  destruct argv as [|a [|b [|c [|d l]]]]; simpl; intros H;
    try discriminate; reflexivity.
Qed.

(** X1. The exit status of a run is 0 or 1, and it is 0 exactly when the
    script got two arguments and the conversion of the first path into the
    second returned normally. *)
Theorem exit_status_zero_iff_converted (E : env) (argv : list string)
    (w : world) :
  ((run E argv w).1 = 0%Z \/ (run E argv w).1 = 1%Z) /\
  ((run E argv w).1 = 0%Z <->
   length argv = 3%nat /\
   exists w1, xlsx_to_csv E (nth 1 argv EmptyString) (nth 2 argv EmptyString) w
              = (Ok tt, w1)).
Proof.
  destruct (decide (length argv = 3%nat)) as [H3 | H3].
  - rewrite (three_arguments argv H3) at 1 2 3.
    rewrite run_two_arguments.
    pose proof (xlsx_to_csv_outcome E (nth 1 argv EmptyString)
                  (nth 2 argv EmptyString) w) as Hout.
    destruct (xlsx_to_csv E (nth 1 argv EmptyString)
                (nth 2 argv EmptyString) w) as [[[]|e|n] w1]; simpl.
    + split; [now left |]. split; [| reflexivity].
      intros _. split; [assumption | now exists w1].
    + split; [now right |]. split; [discriminate |].
      intros (_ & w2 & Hw2). discriminate.
    + now destruct (outcome_no_exit E _ _ w w1 n Hout).
  - rewrite (run_usage E argv w H3). simpl. split; [now right |].
    split; [discriminate | intros [H _]; contradiction].
Qed.


(** X3. A run changes no file other than the one named by its second
    argument: whatever the arguments and whatever fails, every other path
    holds afterwards what it held before. *)
Theorem other_files_untouched (E : env) (argv : list string) (w : world)
    (p : string) :
  p <> nth 2 argv EmptyString ->
  fs (run E argv w).2 !! p = fs w !! p.
Proof.
  intros Hp. destruct (decide (length argv = 3%nat)) as [H3 | H3].
  - rewrite (three_arguments argv H3).
    rewrite run_two_arguments.
    pose proof (xlsx_to_csv_outcome E (nth 1 argv EmptyString)
                  (nth 2 argv EmptyString) w) as Hout.
    destruct (xlsx_to_csv E (nth 1 argv EmptyString)
                (nth 2 argv EmptyString) w) as [[[]|e|n] w1]; simpl;
      now apply (outcome_frame E _ _ p w w1 _ Hout).
  - now rewrite (run_usage E argv w H3).
Qed.

Lemma other_files_untouched_witness :
  fs (run no_failure ["xlsx_to_csv.py"; "in.xlsx"; "out.csv"]
        world_existing).2 !! "notes.txt"
  = Some (Plain "keep me").
Proof.
  rewrite (other_files_untouched no_failure
             ["xlsx_to_csv.py"; "in.xlsx"; "out.csv"] world_existing
             "notes.txt").
  - reflexivity.
  - simpl. discriminate.
Defined.





(** X6. When the source loads and the destination cannot be opened for
    writing, the script reports the exception of the open and exits with
    status 1; no file was changed, and the workbook stays open. *)
Theorem unwritable_destination_untouched (E : env) (prog x c : string)
    (w : world) (wb : workbook) (e : exn) :
  fs w !! x = Some (Xlsx wb) ->
  open_error E c = Some e ->
  run E [prog; x; c] w
  = (1%Z, report e (World (fs w) (handles w) (x :: readers w)
                          (trace w ++ [LoadWorkbook x]))).
Proof.
  intros Hx Ho. rewrite run_two_arguments.
  pose proof (xlsx_to_csv_outcome E x c w) as Hout.
  destruct (xlsx_to_csv E x c w) as [r w1].
  inversion Hout as [Hno | wb' e' Hx' Ho' | |]; subst.
  - now destruct (Hno wb).
  - assert (e' = e) as -> by congruence. reflexivity.
  - congruence.
  - congruence.
Qed.

Lemma unwritable_destination_untouched_witness :
  fs (run read_only_dir ["xlsx_to_csv.py"; "in.xlsx"; "out.csv"]
        world_existing).2
  = fs world_existing.
Proof.
  rewrite (unwritable_destination_untouched read_only_dir "xlsx_to_csv.py"
             "in.xlsx" "out.csv" world_existing (Workbook sheet3 None)
             (Exception "[Errno 13] Permission denied")).
  - reflexivity.
  - vm_compute. reflexivity.
  - reflexivity.
Defined.

Lemma csv_text_empty (rows : list (list value)) :
  csv_text rows = EmptyString -> rows = [].
Proof.
  destruct rows as [|values rows]; [reflexivity |].
  simpl. unfold Csv.writerow. cbv zeta.
  match goal with
  | |- ((?rec +:+ _) +:+ _) = _ -> _ => destruct rec; discriminate
  end.
Qed.

(** X7. After a conversion that completes, the destination is empty exactly
    when the sheet has no rows: every row, even one without cells, leaves at
    least its line terminator. *)
Theorem empty_output_iff_no_rows (E : env) (x c : string) (w w' : world)
    (wb : workbook) :
  fs w !! x = Some (Xlsx wb) ->
  xlsx_to_csv E x c w = (Ok tt, w') ->
  (fs w' !! c = Some (Plain EmptyString) <-> wb_rows wb = []).
Proof.
  intros Hx Hrun.
  rewrite (conversion_done_content E x c w w' wb Hx Hrun). split.
  - intros [= H]. apply csv_text_empty in H.
    now destruct (wb_rows wb).
  - now intros ->.
Qed.

Lemma empty_output_iff_no_rows_witness :
  fs (xlsx_to_csv no_failure "in.xlsx" "out.csv" world3).2 !! "out.csv"
  = Some (Plain EmptyString) <-> sheet3 = [].
Proof.
  apply (empty_output_iff_no_rows no_failure "in.xlsx" "out.csv" world3
           (xlsx_to_csv no_failure "in.xlsx" "out.csv" world3).2
           (Workbook sheet3 None)); vm_compute; reflexivity.
Defined.

(** X8. The script does not compare its two paths: when both arguments name
    the same spreadsheet and the file can be opened for writing, the
    spreadsheet is overwritten, and the path holds plain text afterwards
    whatever the exit status. *)
Theorem same_path_overwrites_source (E : env) (prog x : string) (w : world)
    (wb : workbook) :
  fs w !! x = Some (Xlsx wb) ->
  open_error E x = None ->
  exists content, fs (run E [prog; x; x] w).2 !! x = Some (Plain content).
Proof.
  intros Hx Ho. rewrite run_two_arguments.
  pose proof (xlsx_to_csv_outcome E x x w) as Hout.
  destruct (xlsx_to_csv E x x w) as [r w1].
  inversion Hout as [Hno | | |]; subst; simpl.
  - now destruct (Hno wb).
  - congruence.
  - eexists. apply lookup_insert_eq.
  - eexists. apply lookup_insert_eq.
Qed.

Lemma same_path_overwrites_source_witness :
  exists content,
    fs (run no_failure ["xlsx_to_csv.py"; "in.xlsx"; "in.xlsx"] world3).2
      !! "in.xlsx"
    = Some (Plain content).
Proof.
  apply (same_path_overwrites_source no_failure "xlsx_to_csv.py" "in.xlsx"
           world3 (Workbook sheet3 None)); vm_compute; reflexivity.
Defined.

(** X9. Converting again changes nothing: when source and destination are
    different paths and two conversions in a row both complete, the second
    leaves the file system exactly as the first left it. *)
Theorem rerun_changes_nothing (E : env) (x c : string) (w w1 w2 : world) :
  x <> c ->
  xlsx_to_csv E x c w = (Ok tt, w1) ->
  xlsx_to_csv E x c w1 = (Ok tt, w2) ->
  fs w2 = fs w1.
Proof.
  intros Hxc Hrun1 Hrun2.
  pose proof (xlsx_to_csv_outcome E x c w) as Hout1.
  rewrite Hrun1 in Hout1.
  pose proof (xlsx_to_csv_outcome E x c w1) as Hout2.
  rewrite Hrun2 in Hout2.
  inversion Hout1 as [| | | wb Hx Ho Hre]; subst.
  inversion Hout2 as [| | | wb' Hx' Ho' Hre']; subst.
  simpl in *. rewrite lookup_insert_ne in Hx' by congruence.
  assert (wb' = wb) as -> by congruence.
  apply insert_insert_eq.
Qed.

Lemma rerun_changes_nothing_witness :
  fs (xlsx_to_csv no_failure "in.xlsx" "out.csv"
        (xlsx_to_csv no_failure "in.xlsx" "out.csv" world_existing).2).2
  = fs (xlsx_to_csv no_failure "in.xlsx" "out.csv" world_existing).2.
Proof.
  apply (rerun_changes_nothing no_failure "in.xlsx" "out.csv" world_existing).
  - discriminate.
  - vm_compute. reflexivity.
  - vm_compute. reflexivity.
Defined.

Lemma writerow_text_only (v1 v2 : list value) :
  map Csv.field_text v1 = map Csv.field_text v2 ->
  Csv.writerow v1 = Csv.writerow v2.
Proof.
  intros H. rewrite !writerow_fields.
  rewrite <- (length_map Csv.field_text v1), <- (length_map Csv.field_text v2).
  now rewrite H.
Qed.

(** X10. The output text depends on the texts of the cells and on nothing
    else, and it determines them: two sheets are written as the same text
    exactly when they have the same rows of cell texts. So a number and the
    text of its digits, or None and the empty text, cannot be told apart in
    the output, and no two sheets that differ in a cell text collide. *)
Theorem output_equal_iff_texts (rows1 rows2 : list (list value)) :
  csv_text rows1 = csv_text rows2 <->
  map (map Csv.field_text) rows1 = map (map Csv.field_text) rows2.
Proof.
  split.
  - intros H. rewrite <- !parse_csv_text. now rewrite H.
  - revert rows2. induction rows1 as [|v1 rows1 IH]; intros [|v2 rows2] H;
      try discriminate; [reflexivity |].
    simpl in H. injection H as Hv Hrows.
    simpl. now rewrite (writerow_text_only v1 v2 Hv), (IH rows2 Hrows).
Qed.

Lemma for_each_writerow_ok (E : env) (c : string) (rows : list row) :
  (forall content data, write_error E c content data = None) ->
  forall (w : world) (content : string),
  fs w !! c = Some (Plain content) ->
  for_each rows (fun row => writerow E c (cell_values row)) w
  = (Ok tt, after_rows w c content (length rows) rows).
Proof.
  intros Hw. induction rows as [|row rows IH]; intros w content Hc.
  - simpl. unfold mret, M_ret. now rewrite after_rows_0.
  - change (for_each (row :: rows) ?f)
      with (writerow E c (cell_values row) ≫= fun _ => for_each rows f).
    rewrite bind_run, (writerow_run E w c content) by assumption.
    rewrite Hw.
    rewrite (IH _ (content +:+ Csv.writerow (cell_values row)))
      by apply lookup_insert_eq.
    unfold after_rows. simpl.
    now rewrite insert_insert_eq, string_app_assoc, <- app_assoc.
Qed.

(** X11. When the sheet data is damaged after the rows the iterator could
    read, and no write and no close fails, every row that was read is in the
    destination, which is closed; the script then reports the exception of
    the iterator and exits with status 1, without closing the workbook and
    without the success message. *)
Theorem damaged_sheet_keeps_rows_read (E : env) (prog x c : string)
    (w : world) (wb : workbook) (e : exn) :
  fs w !! x = Some (Xlsx wb) ->
  wb_rows_error wb = Some e ->
  open_error E c = None ->
  (forall content data, write_error E c content data = None) ->
  close_error E c = None ->
  run E [prog; x; c] w
  = (1%Z,
     report e
       (World (<[c := Plain (csv_text (map cell_values (wb_rows wb)))]> (fs w))
              (handles w) (x :: readers w)
              (trace w ++ [LoadWorkbook x; OpenWrite c]
                 ++ writes c (wb_rows wb) ++ [CloseFile c]))).
Proof.
  intros Hx Hre Ho Hw Hcl. rewrite run_two_arguments.
  unfold xlsx_to_csv. rewrite bind_run. unfold load_workbook. rewrite Hx.
  cbv zeta. rewrite bind_run. unfold with_open. rewrite bind_run.
  unfold open_w. cbn [fs handles readers trace]. rewrite Ho.
  unfold closing, for_rows. rewrite bind_run.
  rewrite (for_each_writerow_ok E c (wb_rows wb) Hw _ EmptyString)
    by apply lookup_insert_eq.
  rewrite Hre. unfold raise.
  rewrite close_file_after_rows, Hcl, firstn_all. reflexivity.
Qed.

Lemma damaged_sheet_keeps_rows_read_witness :
  fs (run no_failure ["xlsx_to_csv.py"; "in.xlsx"; "out.csv"]
        world_damaged).2 !! "out.csv"
  = Some (Plain (csv_text (map cell_values (take 2 sheet3)))) /\
  (run no_failure ["xlsx_to_csv.py"; "in.xlsx"; "out.csv"] world_damaged).1
  = 1%Z.
Proof.
  rewrite (damaged_sheet_keeps_rows_read no_failure "xlsx_to_csv.py"
             "in.xlsx" "out.csv" world_damaged
             (Workbook (take 2 sheet3)
                (Some (Exception "not well-formed (invalid token)")))
             (Exception "not well-formed (invalid token)")).
  - split; reflexivity.
  - vm_compute. reflexivity.
  - reflexivity.
  - reflexivity.
  - reflexivity.
  - reflexivity.
Defined.

Lemma pretty_N_char_plain (x : N) : Csv.special (pretty_N_char x) = false.
Proof. unfold pretty_N_char. repeat case_match; reflexivity. Qed.

Lemma pretty_N_go_plain (x : N) : forall s : string,
  Csv.any_special s = false -> Csv.any_special (pretty_N_go x s) = false.
Proof.
  induction (N.lt_wf_0 x) as [x _ IH]; intros s Hs.
  assert (x = 0 \/ 0 < x)%N as [-> | Hx] by lia.
  - now rewrite pretty_N_go_0.
  - rewrite pretty_N_go_step by assumption. apply IH.
    + now apply N.div_lt.
    + simpl. now rewrite pretty_N_char_plain.
Qed.

Lemma pretty_Z_plain (n : Z) : Csv.any_special (pretty n) = false.
Proof.
  assert (forall p : positive, Csv.any_special (pretty p) = false) as Hp.
  { intros p. unfold pretty, pretty_positive, pretty, pretty_N.
    case_decide; [reflexivity | now apply pretty_N_go_plain]. }
  destruct n as [|p|p]; unfold pretty, pretty_Z.
  - reflexivity.
  - apply Hp.
  - change ("-" +:+ pretty p) with (String "-"%char (pretty p)).
    simpl. apply Hp.
Qed.

(** X12. An integer cell is written as its decimal text, without quotes, and
    cells holding different integers are written differently. *)
Theorem integer_cells_unquoted (n m : Z) :
  Csv.render (Csv.field_text (VInt n)) = pretty n /\
  (Csv.render (Csv.field_text (VInt n)) = Csv.render (Csv.field_text (VInt m))
   -> n = m).
Proof.
  assert (forall k : Z, Csv.render (Csv.field_text (VInt k)) = pretty k) as H.
  { intros k. simpl. unfold Csv.render.
    apply join_append_plain, pretty_Z_plain. }
  split; [apply H |]. rewrite !H. apply pretty_Z_inj.
Qed.
